(** * DermHub persistence layer: [app/models.py]

    A shallow embedding of the declarative schema of [models.py] and of the
    two account helpers [User.signup] and [User.authenticate], together with
    the part of the unit of work (add, delete, commit) that gives the column
    and relationship declarations their meaning. *)

From Stdlib Require Import ZArith Ascii.
From stdpp Require Import gmap strings list.

Local Open Scope Z_scope.
Set Warnings "-register-all".

(** ** Exceptions and results *)

(** The two exceptions a flush can raise.  [IntegrityError]: a statement
    violates a constraint of the store; [constraint] names the column whose
    constraint it is.  [DataError]: a value does not fit the type of its
    column. *)
Inductive Exn : Type :=
  | IntegrityError (constraint : string)
  | DataError (column : string).

Inductive Result (A : Type) : Type :=
  | Ok (a : A)
  | Raise (e : Exn).
Arguments Ok {A} a.
Arguments Raise {A} e.

Definition bind {A B} (r : Result A) (k : A -> Result B) : Result B :=
  match r with
  | Ok a => k a
  | Raise e => Raise e
  end.

(** ** The credential hasher: [bcrypt = Bcrypt()] *)

Module Bcrypt.

(** Modelled from the spec: the Credential Hasher behind the module-level
    [bcrypt = Bcrypt()] object (the Flask-Bcrypt package is a dependency,
    not a source file).  The spec describes [hash] as a salted one-way
    hash encoding of the input and says that [verify] recomputes the hash
    from the salt embedded in the hash string.  A scheme therefore
    consists of the one-way function [kdf], the encoding of a salt and a
    digest into a hash string, and the decoding that recovers the embedded
    salt. *)
Record Scheme : Type := {
  Salt : Type;
  kdf : Salt -> string -> string;
  encode : Salt -> string -> string;
  decode : string -> option (Salt * string);
  decode_encode : forall s d, decode (encode s d) = Some (s, d)
}.

(** Modelled from the spec: the source of random salts.  [stream] is the
    sequence of salts the operating system will hand out and [drawn] the
    number of salts consumed so far. *)
Record Entropy (S : Scheme) : Type := {
  stream : nat -> Salt S;
  drawn : nat
}.
Arguments stream {S} _ _.
Arguments drawn {S} _.

Section Ops.
Context (S : Scheme).

(** Modelled from the spec: drawing the next random salt. *)
Definition gensalt (e : Entropy S) : Salt S * Entropy S :=
  (stream e (drawn e), {| stream := stream e; drawn := Datatypes.S (drawn e) |}).

(** Modelled from the spec: [hash] under an explicit salt. *)
Definition hashpw (password : string) (salt : Salt S) : string :=
  encode S salt (kdf S salt password).

(** Modelled from the spec: [Hasher.hash], in the source
    [bcrypt.generate_password_hash(password).decode("utf-8")]: draws a
    fresh salt and returns the hash string. *)
Definition generate_password_hash (password : string) (e : Entropy S)
  : string * Entropy S :=
  let '(salt, e') := gensalt e in (hashpw password salt, e').



End Ops.

(** A small executable scheme, used to run the model on concrete inputs:
    the salt is one character, the digest is the salted password and the
    hash string is a dollar sign, the salt and the digest. *)
Definition toy_decode (h : string) : option (Ascii.ascii * string) :=
  match h with
  | String "$"%char (String c d) => Some (c, d)
  | _ => None
  end.

Definition toy : Scheme := {|
  Salt := Ascii.ascii;
  kdf := fun salt p => String salt p;
  encode := fun salt d => String "$"%char (String salt d);
  decode := toy_decode;
  decode_encode := fun s d => eq_refl
|}.

End Bcrypt.

(** ** Entity schema *)

Module User.
(** [class User(db.Model)], table [users].  A transient object has no
    [id] and no [created_at] yet, and its two flags are unset: the column
    defaults are applied by the INSERT of the flush. *)
Record t : Type := mk {
  id : option Z;
  username : string;
  email : string;
  password_hashed : string;
  first_name : option string;
  last_name : option string;
  created_at : option Z;
  updated_at : option Z;
  has_medical_history : option bool;
  is_admin : option bool
}.
End User.

Module ConsultForm.
Record t : Type := mk {
  id : Z;
  name : string
}.
End ConsultForm.

Module ConsultQuestion.
Record t : Type := mk {
  id : Z;
  prompt : string;
  form_id : Z
}.
End ConsultQuestion.

Module FollowupQuestions.
Record t : Type := mk {
  id : Z;
  prompt : string;
  parent_question_id : Z
}.
End FollowupQuestions.

Module Consultation.
Record t : Type := mk {
  id : Z;
  user_id : option Z;
  form_id : Z;
  primary_question_id : Z;
  status : option string
}.
End Consultation.

Module ConsultAnswer.
Record t : Type := mk {
  id : Z;
  consultation_id : Z;
  user_id : option Z;
  question_id : Z;
  answer_text : option string
}.
End ConsultAnswer.

Module FollowupAnswers.
Record t : Type := mk {
  id : Z;
  consultation_id : Z;
  question_id : Z;
  text_answer : option string;
  file_path : option string
}.
End FollowupAnswers.

(** ** The store *)

(** The seven tables, named by their [__tablename__], the sequence that
    feeds [users.id] and the clock read by [func.now()].  The store is the
    PostgreSQL database whose table [public.users] the docstring of [User]
    refers to: it enforces the declared lengths, NOT NULL, unique and
    foreign-key constraints. *)
Record Database : Type := {
  users : list User.t;
  consultations : list Consultation.t;
  consult_forms : list ConsultForm.t;
  consult_questions : list ConsultQuestion.t;
  followup_questions : list FollowupQuestions.t;
  consult_answers : list ConsultAnswer.t;
  followup_answers : list FollowupAnswers.t;
  users_id_seq : Z;
  now : Z
}.

(** [db.session]: the objects added and the forms marked for deletion since
    the last commit. *)
Record Session : Type := {
  new : list User.t;
  deleted : list ConsultForm.t
}.

Definition empty_session : Session := {| new := []; deleted := [] |}.

(** ** Python values, for the dictionaries built by [to_dict] *)

Inductive PyVal : Type :=
  | PyNone
  | PyInt (z : Z)
  | PyStr (s : string)
  | PyList (l : list PyVal)
  | PyDict (d : gmap string PyVal).

(** ** The process state *)

(** The three module-level objects of [models.py] that carry state: the
    store behind [db], the session [db.session] and the salt source of
    [bcrypt]. *)
Record World (S : Bcrypt.Scheme) : Type := {
  db : Database;
  session : Session;
  entropy : Bcrypt.Entropy S
}.
Arguments db {S} _.
Arguments session {S} _.
Arguments entropy {S} _.

(** ** Account helpers *)

(** [db.session.add(user)] *)
Definition session_add (user : User.t) (s : Session) : Session :=
  {| new := new s ++ [user]; deleted := deleted s |}.




Section Account.
Context {S : Bcrypt.Scheme}.

(** [User.signup]: hashes the password, builds the transient user from the
    five arguments and adds it to the session.  Nothing is written to the
    store. *)
Definition User_signup (username email password : string)
    (first_name last_name : option string) (w : World S)
  : User.t * World S :=
  let '(hashed_pwd, e) := Bcrypt.generate_password_hash S password (entropy w) in
  let user :=
    {| User.id := None;
       User.username := username;
       User.email := email;
       User.password_hashed := hashed_pwd;
       User.first_name := first_name;
       User.last_name := last_name;
       User.created_at := None;
       User.updated_at := None;
       User.has_medical_history := None;
       User.is_admin := None |} in
  (user, {| db := db w; session := session_add user (session w); entropy := e |}).


End Account.

(** ** Flush and commit *)

(** The row an INSERT stores for a pending user.  The primary key comes
    from the sequence when the object has none; [created_at] takes its
    server default [func.now()]; the two flags take their column default
    [False] when the object left them unset; [updated_at] is only set by an
    UPDATE. *)
Definition stored_row (u : User.t) (d : Database) : User.t :=
  {| User.id := Some (default (users_id_seq d) (User.id u));
     User.username := User.username u;
     User.email := User.email u;
     User.password_hashed := User.password_hashed u;
     User.first_name := User.first_name u;
     User.last_name := User.last_name u;
     User.created_at := Some (default (now d) (User.created_at u));
     User.updated_at := User.updated_at u;
     User.has_medical_history := Some (default false (User.has_medical_history u));
     User.is_admin := Some (default false (User.is_admin u)) |}.

(** The store with one more row in [users]. *)
Definition add_row (u : User.t) (d : Database) : Database :=
  {| users := users d ++ [stored_row u d];
     consultations := consultations d;
     consult_forms := consult_forms d;
     consult_questions := consult_questions d;
     followup_questions := followup_questions d;
     consult_answers := consult_answers d;
     followup_answers := followup_answers d;
     users_id_seq := match User.id u with
                     | Some _ => users_id_seq d
                     | None => users_id_seq d + 1
                     end;
     now := now d |}.

(** [db.String(n)]: the value has at most [n] characters. *)
Definition fits (n : nat) (s : string) : Prop := (String.length s <= n)%nat.

Definition fits_opt (n : nat) (s : option string) : Prop :=
  match s with
  | Some s => fits n s
  | None => True
  end.

#[global] Instance fits_dec n s : Decision (fits n s).
Proof. unfold fits. apply _. Defined.

#[global] Instance fits_opt_dec n s : Decision (fits_opt n s).
Proof. destruct s; simpl; apply _. Defined.

(** The declared lengths of the string columns of [users]. *)
Definition fits_columns (u : User.t) : Prop :=
  fits 80 (User.username u) /\
  fits 255 (User.email u) /\
  fits 255 (User.password_hashed u) /\
  fits_opt 120 (User.first_name u) /\
  fits_opt 120 (User.last_name u).

#[global] Instance fits_columns_dec u : Decision (fits_columns u).
Proof. unfold fits_columns. apply _. Defined.

(** INSERT of one pending user.  A value longer than its column is
    rejected; [id] is the primary key, and [username] and [email] are
    declared [unique=True]: a row that repeats one of the three is
    rejected. *)
Definition insert_user (u : User.t) (d : Database) : Result Database :=
  if bool_decide (~ fits_columns u) then
    Raise (DataError "users")
  else if bool_decide (Exists (fun r => User.id r = User.id (stored_row u d)) (users d)) then
    Raise (IntegrityError "users.id")
  else if bool_decide (Exists (fun r => User.username r = User.username u) (users d)) then
    Raise (IntegrityError "users.username")
  else if bool_decide (Exists (fun r => User.email r = User.email u) (users d)) then
    Raise (IntegrityError "users.email")
  else
    Ok (add_row u d).

(** The relationship [ConsultForm.questions]: the questions whose [form_id]
    is the form's [id]. *)
Definition questions (f : ConsultForm.t) (d : Database) : list ConsultQuestion.t :=
  filter (fun q => ConsultQuestion.form_id q = ConsultForm.id f) (consult_questions d).

(** The relationship [ConsultQuestion.followups]: the followup questions
    whose [parent_question_id] is the question's [id]. *)
Definition followups (q : ConsultQuestion.t) (d : Database) : list FollowupQuestions.t :=
  filter (fun fq => FollowupQuestions.parent_question_id fq = ConsultQuestion.id q)
         (followup_questions d).

(** DELETE of one form marked with [db.session.delete(form)].

    [questions] is declared with [cascade="all, delete-orphan"]: the
    questions of the form are deleted with it.  [followups] declares no
    cascade, so the unit of work does not delete the followups of a deleted
    question: it de-associates them, setting [parent_question_id] to NULL,
    and the column is declared [nullable=False], so the store rejects that
    UPDATE.  The other tables that point at a form or a question
    ([consultations], [consult_answers]) have no relationship from the
    deleted side; their foreign keys reject the DELETE of a row they
    reference. *)
Definition delete_form (f : ConsultForm.t) (d : Database) : Result Database :=
  let qids := ConsultQuestion.id <$> questions f d in
  if bool_decide (Exists (fun fq => FollowupQuestions.parent_question_id fq ∈ qids)
                         (followup_questions d)) then
    Raise (IntegrityError "followup_questions.parent_question_id")
  else if bool_decide (Exists (fun a => ConsultAnswer.question_id a ∈ qids)
                              (consult_answers d)) then
    Raise (IntegrityError "consult_answers.question_id")
  else if bool_decide (Exists (fun c => Consultation.primary_question_id c ∈ qids)
                              (consultations d)) then
    Raise (IntegrityError "consultations.primary_question_id")
  else if bool_decide (Exists (fun c => Consultation.form_id c = ConsultForm.id f)
                              (consultations d)) then
    Raise (IntegrityError "consultations.form_id")
  else
    Ok {| users := users d;
          consultations := consultations d;
          consult_forms :=
            filter (fun g => ConsultForm.id g <> ConsultForm.id f) (consult_forms d);
          consult_questions :=
            filter (fun q => ConsultQuestion.id q ∉ qids) (consult_questions d);
          followup_questions := followup_questions d;
          consult_answers := consult_answers d;
          followup_answers := followup_answers d;
          users_id_seq := users_id_seq d;
          now := now d |}.

(** Runs one statement per object of the list, stopping at the first
    failure. *)
Fixpoint each {A} (stmt : A -> Database -> Result Database) (objs : list A)
    (d : Database) : Result Database :=
  match objs with
  | [] => Ok d
  | o :: objs' => bind (stmt o d) (each stmt objs')
  end.

(** The flush: the pending inserts in the order of [add], then the
    deletes. *)
Definition flush (s : Session) (d : Database) : Result Database :=
  bind (each insert_user (new s) d) (each delete_form (deleted s)).

(** [db.session.delete(form)] *)
Definition session_delete (f : ConsultForm.t) (s : Session) : Session :=
  {| new := new s; deleted := deleted s ++ [f] |}.

(** [db.session.commit()], followed by the rollback a failed commit asks
    for: when the flush raises, the transaction is rolled back, so the
    tables are those before the commit (the sequence is taken back with
    them; nothing below depends on its value after a failure).  Either way
    the session is empty afterwards. *)
Definition commit {S} (w : World S) : option Exn * World S :=
  match flush (session w) (db w) with
  | Ok d => (None, {| db := d; session := empty_session; entropy := entropy w |})
  | Raise e => (Some e, {| db := db w; session := empty_session; entropy := entropy w |})
  end.

(** ** Serialization *)

(** [FollowupQuestions.to_dict] *)
Definition FollowupQuestions_to_dict (self : FollowupQuestions.t) : gmap string PyVal :=
  {[ "id" := PyInt (FollowupQuestions.id self);
     "prompt" := PyStr (FollowupQuestions.prompt self);
     "parent_question_id" := PyInt (FollowupQuestions.parent_question_id self) ]}.

(** [ConsultQuestion.to_dict]; [self.followups] is loaded from the store. *)
Definition ConsultQuestion_to_dict (self : ConsultQuestion.t) (d : Database)
  : gmap string PyVal :=
  {[ "id" := PyInt (ConsultQuestion.id self);
     "prompt" := PyStr (ConsultQuestion.prompt self);
     "form_id" := PyInt (ConsultQuestion.form_id self);
     "followups" :=
       PyList ((fun f => PyDict (FollowupQuestions_to_dict f)) <$> followups self d) ]}.


(** ** Well-formed stores and valid inputs *)

Definition pk_below (n : Z) (r : User.t) : Prop :=
  match User.id r with
  | Some i => i < n
  | None => False
  end.

#[global] Instance pk_below_dec n r : Decision (pk_below n r).
Proof. unfold pk_below. destruct (User.id r); apply _. Defined.

(** What the constraints of [users] guarantee of the stored rows: no two
    rows share a [username] or an [email], and the sequence is ahead of
    every primary key in use. *)
Record users_wf (d : Database) : Prop := {
  wf_username : NoDup (User.username <$> users d);
  wf_email : NoDup (User.email <$> users d);
  wf_seq : Forall (pk_below (users_id_seq d)) (users d)
}.


(** Nothing outside [consult_forms] and [consult_questions] points at the
    form or at one of its questions. *)
Record unreferenced (f : ConsultForm.t) (d : Database) : Prop := {
  no_followup : forall fq, fq ∈ followup_questions d ->
    FollowupQuestions.parent_question_id fq ∉ ConsultQuestion.id <$> questions f d;
  no_answer : forall a, a ∈ consult_answers d ->
    ConsultAnswer.question_id a ∉ ConsultQuestion.id <$> questions f d;
  no_primary : forall c, c ∈ consultations d ->
    Consultation.primary_question_id c ∉ ConsultQuestion.id <$> questions f d;
  no_consultation : forall c, c ∈ consultations d ->
    Consultation.form_id c <> ConsultForm.id f
}.

(** ** Sequences of calls *)

(** The calls a request handler makes on this module: a signup, marking a
    form for deletion, and a commit. *)
Inductive Call : Type :=
  | CallSignup (username email password : string)
               (first_name last_name : option string)
  | CallDelete (f : ConsultForm.t)
  | CallCommit.

Definition call {S} (c : Call) (w : World S) : World S :=
  match c with
  | CallSignup username email password first_name last_name =>
      snd (User_signup username email password first_name last_name w)
  | CallDelete f =>
      {| db := db w; session := session_delete f (session w); entropy := entropy w |}
  | CallCommit => snd (commit w)
  end.

Definition run {S} (cs : list Call) (w : World S) : World S :=
  fold_left (fun w c => call c w) cs w.

(** The pending users are transient objects, as [signup] builds them: none
    carries a primary key yet. *)
Definition transient (s : Session) : Prop :=
  Forall (fun u => User.id u = None) (new s).

(** ** Sample data *)

Definition toy_entropy : Bcrypt.Entropy Bcrypt.toy :=
  Bcrypt.Build_Entropy Bcrypt.toy (fun n => Ascii.ascii_of_nat (65 + n)%nat) 0%nat.

(** One committed account, [alice] with the password [wonderland] hashed
    under the salt [s]. *)
Definition alice : User.t :=
  {| User.id := Some 1;
     User.username := "alice";
     User.email := "alice@example.org";
     User.password_hashed := "$sswonderland";
     User.first_name := Some "Alice"%string;
     User.last_name := None;
     User.created_at := Some 1700000000;
     User.updated_at := None;
     User.has_medical_history := Some false;
     User.is_admin := Some false |}.

Definition db_alice : Database :=
  {| users := [alice];
     consultations := [];
     consult_forms := [];
     consult_questions := [];
     followup_questions := [];
     consult_answers := [];
     followup_answers := [];
     users_id_seq := 2;
     now := 1700000100 |}.

Definition world_alice : World Bcrypt.toy :=
  {| db := db_alice; session := empty_session; entropy := toy_entropy |}.



(** Two forms.  The first has one question, which has two followups; the
    second has one question without followups. *)
Definition form_acne : ConsultForm.t :=
  {| ConsultForm.id := 1; ConsultForm.name := "acne" |}.

Definition form_rash : ConsultForm.t :=
  {| ConsultForm.id := 2; ConsultForm.name := "rash" |}.

Definition question_where : ConsultQuestion.t :=
  {| ConsultQuestion.id := 10;
     ConsultQuestion.prompt := "Where is it?";
     ConsultQuestion.form_id := 1 |}.

Definition question_itch : ConsultQuestion.t :=
  {| ConsultQuestion.id := 11;
     ConsultQuestion.prompt := "Does it itch?";
     ConsultQuestion.form_id := 2 |}.

Definition followup_since : FollowupQuestions.t :=
  {| FollowupQuestions.id := 100;
     FollowupQuestions.prompt := "Since when?";
     FollowupQuestions.parent_question_id := 10 |}.

Definition followup_spread : FollowupQuestions.t :=
  {| FollowupQuestions.id := 101;
     FollowupQuestions.prompt := "Is it spreading?";
     FollowupQuestions.parent_question_id := 10 |}.

Definition db_forms : Database :=
  {| users := [alice];
     consultations := [];
     consult_forms := [form_acne; form_rash];
     consult_questions := [question_where; question_itch];
     followup_questions := [followup_since; followup_spread];
     consult_answers := [];
     followup_answers := [];
     users_id_seq := 2;
     now := 1700000100 |}.

Definition world_forms : World Bcrypt.toy :=
  {| db := db_forms; session := empty_session; entropy := toy_entropy |}.

(** ** The hasher *)

Section HasherFacts.
Context {S : Bcrypt.Scheme}.

Lemma encode_inj (s1 s2 : Bcrypt.Salt S) (d1 d2 : string) :
  Bcrypt.encode S s1 d1 = Bcrypt.encode S s2 d2 -> s1 = s2 /\ d1 = d2.
Proof.
  intros H. apply (f_equal (Bcrypt.decode S)) in H.
  rewrite !Bcrypt.decode_encode in H. by inversion H.
Qed.



Lemma hashpw_salt_inj (s1 s2 : Bcrypt.Salt S) (p q : string) :
  Bcrypt.hashpw S p s1 = Bcrypt.hashpw S q s2 -> s1 = s2.
Proof. unfold Bcrypt.hashpw. intros H. by apply encode_inj in H as [? _]. Qed.


End HasherFacts.








(** ** The username query *)




(** ** [User.authenticate] *)



Lemma db_alice_wf : users_wf db_alice.
Proof.
  split; simpl.
  - apply NoDup_singleton.
  - apply NoDup_singleton.
  - repeat constructor.
Defined.


(** ** [User.signup] *)

(** C2. [signup] returns a transient user that carries the hash of the
    password and the four other arguments, adds exactly that user to the
    session, leaves the store as it was, and consults no table: the result
    is the same over any store. *)
Theorem signup_stages_transient_user (S : Bcrypt.Scheme)
    (username email password : string) (first_name last_name : option string)
    (w : World S) :
  let '(user, w') := User_signup username email password first_name last_name w in
  User.password_hashed user
    = fst (Bcrypt.generate_password_hash S password (entropy w)) /\
  User.username user = username /\
  User.email user = email /\
  User.first_name user = first_name /\
  User.last_name user = last_name /\
  User.id user = None /\
  new (session w') = new (session w) ++ [user] /\
  deleted (session w') = deleted (session w) /\
  db w' = db w /\
  forall d : Database,
    let '(user2, w2) :=
      User_signup username email password first_name last_name
        {| db := d; session := session w; entropy := entropy w |} in
    user2 = user /\ session w2 = session w' /\ db w2 = d.
Proof.
  unfold User_signup. simpl. repeat split.
Qed.

(** ** Inserting users *)

Lemma filter_none {A} (P : A -> Prop) `{!forall x, Decision (P x)} (l : list A) :
  (forall x, x ∈ l -> ~ P x) -> filter P l = [].
Proof.
  induction l as [| x l IH]; intros Hall; [done |].
  rewrite filter_cons_False by (apply Hall; by left).
  apply IH. intros y Hy. apply Hall. by right.
Qed.

Lemma each_app {A} (stmt : A -> Database -> Result Database) (l1 l2 : list A)
    (d : Database) :
  each stmt (l1 ++ l2) d = bind (each stmt l1 d) (each stmt l2).
Proof.
  revert d. induction l1 as [| o l1 IH]; intros d; simpl; [done |].
  destruct (stmt o d) as [d1 | e]; simpl; [apply IH | done].
Qed.

Lemma insert_user_inv (u : User.t) (d d' : Database) :
  insert_user u d = Ok d' ->
  d' = add_row u d /\
  fits_columns u /\
  ~ Exists (fun r => User.id r = User.id (stored_row u d)) (users d) /\
  ~ Exists (fun r => User.username r = User.username u) (users d) /\
  ~ Exists (fun r => User.email r = User.email u) (users d).
Proof.
  unfold insert_user. repeat case_bool_decide; intros Hok; simplify_eq.
  split; [done |]. split; [| done].
  by destruct (decide (fits_columns u)).
Qed.


Lemma insert_user_wf (u : User.t) (d d' : Database) :
  User.id u = None ->
  users_wf d -> insert_user u d = Ok d' -> users_wf d'.
Proof.
  intros Hu [Hn He Hs] H.
  apply insert_user_inv in H as (-> & _ & Hid & Hname & Hmail).
  rewrite Exists_exists in Hid, Hname, Hmail.
  split; simpl.
  - rewrite fmap_app. apply NoDup_app. split; [done |]. split.
    + intros x Hx Hx'. apply list_elem_of_singleton in Hx' as ->.
      apply list_elem_of_fmap in Hx as (r & Heq & Hr). apply Hname. eauto.
    + apply NoDup_singleton.
  - rewrite fmap_app. apply NoDup_app. split; [done |]. split.
    + intros x Hx Hx'. apply list_elem_of_singleton in Hx' as ->.
      apply list_elem_of_fmap in Hx as (r & Heq & Hr). apply Hmail. eauto.
    + apply NoDup_singleton.
  - rewrite Hu. apply Forall_app. split.
    + eapply Forall_impl; [exact Hs |]. intros r. unfold pk_below.
      destruct (User.id r); [lia | done].
    + apply Forall_singleton. unfold pk_below. simpl. rewrite Hu. simpl. lia.
Qed.



(** ** Signup, commit, authenticate *)



(** ** Uniqueness of the email *)



(** ** Column defaults of a signed-up user *)

Lemma delete_form_users (f : ConsultForm.t) (d d' : Database) :
  delete_form f d = Ok d' -> users d' = users d.
Proof.
  unfold delete_form. repeat case_bool_decide; intros Hok; by simplify_eq.
Qed.

Lemma each_delete_form_users (fs : list ConsultForm.t) (d d' : Database) :
  each delete_form fs d = Ok d' -> users d' = users d.
Proof.
  revert d. induction fs as [| f fs IH]; intros d; simpl.
  - by intros [= <-].
  - destruct (delete_form f d) as [d1 | e] eqn:Hdel; simpl; [| done].
    intros Hrest. rewrite (IH _ Hrest). by apply (delete_form_users f).
Qed.

(** C10. [signup] leaves [is_admin] and [has_medical_history] unset, and the
    row that a successful commit stores for the user carries the column
    default [False] in both: no account created by [signup] is an
    administrator account. *)
Theorem signup_never_admin (S : Bcrypt.Scheme) (w : World S)
    (username email password : string) (first_name last_name : option string) :
  let '(user, w1) := User_signup username email password first_name last_name w in
  User.is_admin user = None /\
  User.has_medical_history user = None /\
  forall w2, commit w1 = (None, w2) ->
    exists rows row,
      users (db w2) = rows ++ [row] /\
      User.username row = username /\
      User.email row = email /\
      User.password_hashed row = User.password_hashed user /\
      User.is_admin row = Some false /\
      User.has_medical_history row = Some false.
Proof.
  unfold User_signup. simpl. split; [done |]. split; [done |].
  intros w2. unfold commit, flush. simpl. rewrite each_app. simpl.
  destruct (each insert_user (new (session w)) (db w)) as [d0 | e0]; simpl; [| done].
  set (user := User.mk _ _ _ _ _ _ _ _ _ _).
  destruct (insert_user user d0) as [d1 | e1] eqn:Hins; simpl; [| done].
  destruct (each delete_form _ d1) as [d2 | e2] eqn:Hdel; [| done].
  intros [= <-]. simpl.
  apply each_delete_form_users in Hdel. rewrite Hdel.
  apply insert_user_inv in Hins as (-> & _). simpl.
  by exists (users d0), (stored_row user d0).
Qed.

Lemma signup_never_admin_witness :
  exists rows row,
    users (db (snd (commit (snd
      (User_signup "bob" "bob@example.org" "hunter2" None None world_alice)))))
      = rows ++ [row] /\
    User.username row = "bob"%string /\
    User.email row = "bob@example.org"%string /\
    User.password_hashed row = "$AAhunter2"%string /\
    User.is_admin row = Some false /\
    User.has_medical_history row = Some false.
Proof.
  exact (proj2 (proj2 (signup_never_admin Bcrypt.toy world_alice
                         "bob" "bob@example.org" "hunter2" None None))
           _ eq_refl).
Defined.

(** ** Serialization *)

(** C8. On a question with exactly two followups, [to_dict] returns a map
    with the keys [id], [prompt], [form_id] and [followups]; [followups] is a
    list of two maps, which carry the [id], [prompt] and [parent_question_id]
    of the two stored followup rows of the question. *)
Theorem to_dict_two_followups (self : ConsultQuestion.t) (d : Database)
    (f1 f2 : FollowupQuestions.t)
    (Htwo : followups self d = [f1; f2]) :
  let m := ConsultQuestion_to_dict self d in
  dom m = ({[ "id"; "prompt"; "form_id"; "followups" ]} : gset string) /\
  m !! "id" = Some (PyInt (ConsultQuestion.id self)) /\
  m !! "prompt" = Some (PyStr (ConsultQuestion.prompt self)) /\
  m !! "form_id" = Some (PyInt (ConsultQuestion.form_id self)) /\
  exists m1 m2 : gmap string PyVal,
    m !! "followups" = Some (PyList [PyDict m1; PyDict m2]) /\
    Forall2 (fun (mi : gmap string PyVal) fi =>
               fi ∈ followup_questions d /\
               FollowupQuestions.parent_question_id fi = ConsultQuestion.id self /\
               dom mi = ({[ "id"; "prompt"; "parent_question_id" ]} : gset string) /\
               mi !! "id" = Some (PyInt (FollowupQuestions.id fi)) /\
               mi !! "prompt" = Some (PyStr (FollowupQuestions.prompt fi)) /\
               mi !! "parent_question_id"
                 = Some (PyInt (FollowupQuestions.parent_question_id fi)))
            [m1; m2] [f1; f2].
Proof.
  assert (Hrows : forall f, f ∈ [f1; f2] ->
            f ∈ followup_questions d /\
            FollowupQuestions.parent_question_id f = ConsultQuestion.id self).
  { intros f Hf. rewrite <- Htwo in Hf. unfold followups in Hf.
    apply list_elem_of_filter in Hf. tauto. }
  unfold ConsultQuestion_to_dict. simpl. rewrite Htwo. simpl.
  split; [rewrite !dom_insert_L, dom_singleton_L; set_solver |].
  split; [by simplify_map_eq |].
  split; [by simplify_map_eq |].
  split; [by simplify_map_eq |].
  exists (FollowupQuestions_to_dict f1), (FollowupQuestions_to_dict f2).
  split; [by simplify_map_eq |].
  destruct (Hrows f1) as [Hin1 Hp1]; [by left |].
  destruct (Hrows f2) as [Hin2 Hp2]; [right; by left |].
  assert (Hdom : forall f, dom (FollowupQuestions_to_dict f)
                 = ({[ "id"; "prompt"; "parent_question_id" ]} : gset string)).
  { intros f. unfold FollowupQuestions_to_dict.
    rewrite !dom_insert_L, dom_singleton_L. set_solver. }
  repeat constructor; try done; unfold FollowupQuestions_to_dict;
    by simplify_map_eq.
Qed.

Lemma to_dict_two_followups_witness :
  followups question_where db_forms = [followup_since; followup_spread] /\
  let m := ConsultQuestion_to_dict question_where db_forms in
  dom m = ({[ "id"; "prompt"; "form_id"; "followups" ]} : gset string) /\
  m !! "id" = Some (PyInt 10) /\
  m !! "prompt" = Some (PyStr "Where is it?") /\
  m !! "form_id" = Some (PyInt 1) /\
  exists m1 m2 : gmap string PyVal,
    m !! "followups" = Some (PyList [PyDict m1; PyDict m2]) /\
    Forall2 (fun (mi : gmap string PyVal) fi =>
               fi ∈ followup_questions db_forms /\
               FollowupQuestions.parent_question_id fi = 10 /\
               dom mi = ({[ "id"; "prompt"; "parent_question_id" ]} : gset string) /\
               mi !! "id" = Some (PyInt (FollowupQuestions.id fi)) /\
               mi !! "prompt" = Some (PyStr (FollowupQuestions.prompt fi)) /\
               mi !! "parent_question_id"
                 = Some (PyInt (FollowupQuestions.parent_question_id fi)))
            [m1; m2] [followup_since; followup_spread].
Proof.
  split; [reflexivity |].
  exact (to_dict_two_followups question_where db_forms
           followup_since followup_spread eq_refl).
Defined.

(** ** Deleting a form *)

Lemma delete_form_inv (f : ConsultForm.t) (d d' : Database) :
  delete_form f d = Ok d' ->
  ~ Exists (fun fq => FollowupQuestions.parent_question_id fq
                      ∈ ConsultQuestion.id <$> questions f d) (followup_questions d) /\
  followup_questions d' = followup_questions d /\
  consult_forms d'
    = filter (fun g => ConsultForm.id g <> ConsultForm.id f) (consult_forms d) /\
  consult_questions d'
    = filter (fun q => ConsultQuestion.id q ∉ ConsultQuestion.id <$> questions f d)
             (consult_questions d).
Proof.
  unfold delete_form. repeat case_bool_decide; intros Hok; by simplify_eq.
Qed.

Lemma delete_form_followup (f : ConsultForm.t) (d : Database)
    (q : ConsultQuestion.t) (fq : FollowupQuestions.t) :
  q ∈ questions f d -> fq ∈ followups q d ->
  delete_form f d = Raise (IntegrityError "followup_questions.parent_question_id").
Proof.
  intros Hq Hfq. unfold delete_form. rewrite bool_decide_eq_true_2; [done |].
  apply list_elem_of_filter in Hfq as [Hparent Hfq].
  apply Exists_exists. exists fq. split; [done |].
  rewrite Hparent. by apply list_elem_of_fmap_2.
Qed.

Lemma delete_form_unreferenced (f : ConsultForm.t) (d : Database) :
  unreferenced f d -> exists d', delete_form f d = Ok d'.
Proof.
  intros [Hf Ha Hp Hc]. unfold delete_form.
  rewrite bool_decide_eq_false_2.
  2:{ rewrite Exists_exists. intros (x & Hx & Hin). by apply (Hf x). }
  rewrite bool_decide_eq_false_2.
  2:{ rewrite Exists_exists. intros (x & Hx & Hin). by apply (Ha x). }
  rewrite bool_decide_eq_false_2.
  2:{ rewrite Exists_exists. intros (x & Hx & Hin). by apply (Hp x). }
  rewrite bool_decide_eq_false_2; [eauto |].
  rewrite Exists_exists. intros (x & Hx & Hin). by apply (Hc x).
Qed.

(** The commit that follows [db.session.delete(f)] in an empty session runs
    the one DELETE. *)
Lemma commit_after_delete (S : Bcrypt.Scheme) (w : World S) (f : ConsultForm.t) :
  session w = empty_session ->
  commit {| db := db w; session := session_delete f (session w); entropy := entropy w |}
  = match delete_form f (db w) with
    | Ok d => (None, {| db := d; session := empty_session; entropy := entropy w |})
    | Raise e => (Some e, {| db := db w; session := empty_session; entropy := entropy w |})
    end.
Proof.
  intros Hs. unfold commit, flush. simpl. rewrite Hs. simpl.
  by destruct (delete_form f (db w)).
Qed.

(** C7, as the claim states it, fails: deleting a form whose question has
    followups raises, and the question row is still in the table. *)
Lemma delete_form_with_followups_raises :
  let w := {| db := db_forms;
              session := session_delete form_acne empty_session;
              entropy := toy_entropy |} in
  fst (commit w) = Some (IntegrityError "followup_questions.parent_question_id") /\
  db (snd (commit w)) = db_forms /\
  ~ (forall q, q ∈ consult_questions (db (snd (commit w))) ->
       ConsultQuestion.form_id q <> ConsultForm.id form_acne).
Proof.
  split; [reflexivity |]. split; [reflexivity |].
  intros H. apply (H question_where); [by left | reflexivity].
Qed.

(** C7, amended.  After [db.session.delete(f)] and [commit]: no followup row
    is ever deleted; when the commit succeeds no question row of the form is
    left (exactly the form's questions are removed) and no followup row
    pointed at one of them; the commit succeeds when nothing points at the
    form or its questions; and when a question of the form has a followup
    the commit raises an integrity error and leaves the store unchanged. *)
Theorem delete_form_cascade (S : Bcrypt.Scheme) (w : World S) (f : ConsultForm.t)
    (Hsession : session w = empty_session) :
  let '(exn, w') :=
    commit {| db := db w; session := session_delete f (session w);
              entropy := entropy w |} in
  followup_questions (db w') = followup_questions (db w) /\
  (exn = None ->
     (forall q, q ∈ consult_questions (db w') ->
        ConsultQuestion.form_id q <> ConsultForm.id f) /\
     consult_questions (db w')
       = filter (fun q => ConsultQuestion.id q ∉ ConsultQuestion.id <$> questions f (db w))
                (consult_questions (db w)) /\
     (forall g, g ∈ consult_forms (db w') -> ConsultForm.id g <> ConsultForm.id f) /\
     (forall q, q ∈ questions f (db w) -> followups q (db w) = [])) /\
  (unreferenced f (db w) -> exn = None) /\
  ((exists q, q ∈ questions f (db w) /\ followups q (db w) <> []) ->
     exn = Some (IntegrityError "followup_questions.parent_question_id") /\
     db w' = db w).
Proof.
  rewrite (commit_after_delete S w f Hsession).
  destruct (delete_form f (db w)) as [d' | e] eqn:Hdel; simpl.
  - apply delete_form_inv in Hdel as Hinv. destruct Hinv as (Hno & Hfq & Hforms & Hqs).
    split; [done |]. split; [| split; [done |]].
    + intros _. split; [| split; [done | split]].
      * intros q Hq Hform. rewrite Hqs in Hq.
        apply list_elem_of_filter in Hq as [Hnot Hq]. apply Hnot.
        apply list_elem_of_fmap_2. apply list_elem_of_filter. by split.
      * intros g Hg. rewrite Hforms in Hg. by apply list_elem_of_filter in Hg as [? _].
      * intros q Hq. apply filter_none. intros fq Hin Hparent. apply Hno.
        apply Exists_exists. exists fq. split; [done |].
        rewrite Hparent. by apply list_elem_of_fmap_2.
    + intros (q & Hq & Hne). destruct (followups q (db w)) as [| fq l] eqn:Hfs; [done |].
      assert (Hin : fq ∈ followups q (db w)) by (rewrite Hfs; by left).
      by rewrite (delete_form_followup f (db w) q fq Hq Hin) in Hdel.
  - split; [done |]. split; [done |]. split.
    + intros Hun. apply delete_form_unreferenced in Hun as [d' Hok]. congruence.
    + intros (q & Hq & Hne). destruct (followups q (db w)) as [| fq l] eqn:Hfs; [done |].
      assert (Hin : fq ∈ followups q (db w)) by (rewrite Hfs; by left).
      rewrite (delete_form_followup f (db w) q fq Hq Hin) in Hdel. by simplify_eq.
Qed.

Lemma form_rash_unreferenced : unreferenced form_rash db_forms.
Proof.
  split; simpl; try (intros x Hx; by apply elem_of_nil in Hx).
  intros fq Hfq. vm_compute. intros Hin.
  apply list_elem_of_singleton in Hin.
  repeat (apply elem_of_cons in Hfq as [-> | Hfq]; [discriminate Hin |]).
  by apply elem_of_nil in Hfq.
Qed.

Lemma delete_form_cascade_witness :
  let '(exn, w') :=
    commit {| db := db_forms; session := session_delete form_rash empty_session;
              entropy := toy_entropy |} in
  (exn = None /\
   consult_forms (db w') = [form_acne] /\
   consult_questions (db w') = [question_where]) /\
  followup_questions (db w') = [followup_since; followup_spread] /\
  (exn = None ->
     (forall q, q ∈ consult_questions (db w') ->
        ConsultQuestion.form_id q <> ConsultForm.id form_rash) /\
     consult_questions (db w')
       = filter (fun q => ConsultQuestion.id q
                          ∉ ConsultQuestion.id <$> questions form_rash db_forms)
                (consult_questions db_forms) /\
     (forall g, g ∈ consult_forms (db w') -> ConsultForm.id g <> ConsultForm.id form_rash) /\
     (forall q, q ∈ questions form_rash db_forms -> followups q db_forms = [])) /\
  (unreferenced form_rash db_forms -> exn = None) /\
  ((exists q, q ∈ questions form_rash db_forms /\ followups q db_forms <> []) ->
     exn = Some (IntegrityError "followup_questions.parent_question_id") /\
     db w' = db_forms).
Proof.
  split; [by repeat split |].
  exact (delete_form_cascade Bcrypt.toy world_forms form_rash eq_refl).
Defined.

(** ** What a flush does to [users] *)

Lemma delete_form_users_id_seq (f : ConsultForm.t) (d d' : Database) :
  delete_form f d = Ok d' -> users_id_seq d' = users_id_seq d.
Proof.
  unfold delete_form. repeat case_bool_decide; intros Hok; by simplify_eq.
Qed.

Lemma each_delete_form_users_id_seq (fs : list ConsultForm.t) (d d' : Database) :
  each delete_form fs d = Ok d' -> users_id_seq d' = users_id_seq d.
Proof.
  revert d. induction fs as [| f fs IH]; intros d; simpl.
  - by intros [= <-].
  - destruct (delete_form f d) as [d1 | e] eqn:Hdel; simpl; [| done].
    intros Hrest. rewrite (IH _ Hrest). by apply (delete_form_users_id_seq f).
Qed.

Lemma users_wf_ext (d d' : Database) :
  users d' = users d -> users_id_seq d' = users_id_seq d ->
  users_wf d -> users_wf d'.
Proof. intros Hu Hs [? ? ?]. split; by rewrite ?Hu, ?Hs. Qed.

Lemma each_insert_user_wf (l : list User.t) (d d' : Database) :
  Forall (fun u => User.id u = None) l ->
  users_wf d -> each insert_user l d = Ok d' ->
  users_wf d' /\ users d `prefix_of` users d'.
Proof.
  revert d. induction l as [| u l IH]; intros d Hl Hwf; simpl.
  - by intros [= <-].
  - apply Forall_cons in Hl as [Hu Hl].
    destruct (insert_user u d) as [d1 | e] eqn:Hins; simpl; [| done].
    intros Hrest.
    destruct (IH d1 Hl (insert_user_wf u d d1 Hu Hwf Hins) Hrest) as [Hwf' Hpre].
    split; [done |]. etrans; [| exact Hpre].
    apply insert_user_inv in Hins as (-> & _). simpl. by apply prefix_app_r.
Qed.

Lemma flush_wf (s : Session) (d d' : Database) :
  transient s -> users_wf d -> flush s d = Ok d' ->
  users_wf d' /\ users d `prefix_of` users d'.
Proof.
  intros Ht Hwf. unfold flush.
  destruct (each insert_user (new s) d) as [d1 | e] eqn:Hins; simpl; [| done].
  intros Hdel.
  destruct (each_insert_user_wf _ _ _ Ht Hwf Hins) as [Hwf1 Hpre].
  pose proof (each_delete_form_users _ _ _ Hdel) as Hu.
  pose proof (each_delete_form_users_id_seq _ _ _ Hdel) as Hs.
  split; [by apply (users_wf_ext d1) | by rewrite Hu].
Qed.

Lemma call_wf (S : Bcrypt.Scheme) (c : Call) (w : World S) :
  users_wf (db w) -> transient (session w) ->
  users_wf (db (call c w)) /\ transient (session (call c w)) /\
  users (db w) `prefix_of` users (db (call c w)).
Proof.
  intros Hwf Ht. destruct c as [username email password fn ln | f |]; simpl.
  - split; [done |]. split; [| done].
    unfold transient. simpl. apply Forall_app. split; [done |].
    by apply Forall_singleton.
  - done.
  - unfold commit. destruct (flush (session w) (db w)) as [d' | e] eqn:Hf; simpl.
    + destruct (flush_wf _ _ _ Ht Hwf Hf) as [? ?]. split; [done |].
      split; [apply Forall_nil_2 | done].
    + split; [done |]. split; [apply Forall_nil_2 | done].
Qed.

Lemma run_wf (S : Bcrypt.Scheme) (cs : list Call) (w : World S) :
  users_wf (db w) -> transient (session w) ->
  users_wf (db (run cs w)) /\ transient (session (run cs w)) /\
  users (db w) `prefix_of` users (db (run cs w)).
Proof.
  revert w. induction cs as [| c cs IH]; intros w Hwf Ht; simpl.
  - done.
  - destruct (call_wf S c w Hwf Ht) as (Hwf1 & Ht1 & Hpre1).
    destruct (IH (call c w) Hwf1 Ht1) as (Hwf2 & Ht2 & Hpre2).
    split; [done |]. split; [done |]. by etrans.
Qed.

(** X1. Along any sequence of signups, deletions of forms and commits, the
    [users] table keeps what its constraints promise: no two rows share a
    [username] or an [email], and every primary key in use is below the
    sequence. *)
Theorem run_preserves_users_wf (S : Bcrypt.Scheme) (cs : list Call) (w : World S)
    (Hwf : users_wf (db w)) (Htransient : transient (session w)) :
  users_wf (db (run cs w)).
Proof. by destruct (run_wf S cs w Hwf Htransient) as (? & _). Qed.

Lemma run_preserves_users_wf_witness :
  users_wf (db (run [CallSignup "bob" "bob@example.org" "hunter2" None None;
                     CallCommit;
                     CallSignup "bob" "other@example.org" "s3cret" None None;
                     CallCommit] world_alice)) /\
  length (users (db (run [CallSignup "bob" "bob@example.org" "hunter2" None None;
                          CallCommit;
                          CallSignup "bob" "other@example.org" "s3cret" None None;
                          CallCommit] world_alice))) = 2%nat.
Proof.
  split; [| reflexivity].
  apply (run_preserves_users_wf Bcrypt.toy _ world_alice).
  - exact db_alice_wf.
  - apply Forall_nil_2.
Defined.



(** ** More on [User.authenticate] *)





(** ** Collisions at commit *)






(** ** Passwords *)



(** X8. Two users who sign up with the same password do not get the same
    [password_hashed]: each signup draws its own salt, and the two hash
    strings differ when the two salts do. *)
Theorem signups_same_password_differ (S : Bcrypt.Scheme) (w : World S)
    (username1 username2 email1 email2 password : string)
    (first_name1 last_name1 first_name2 last_name2 : option string)
    (Hsalt : Bcrypt.stream (entropy w) (Bcrypt.drawn (entropy w))
             <> Bcrypt.stream (entropy w) (Datatypes.S (Bcrypt.drawn (entropy w)))) :
  let '(user1, w1) :=
    User_signup username1 email1 password first_name1 last_name1 w in
  let '(user2, _) :=
    User_signup username2 email2 password first_name2 last_name2 w1 in
  User.password_hashed user1 <> User.password_hashed user2.
Proof.
  unfold User_signup. simpl. intros Heq. by apply hashpw_salt_inj in Heq.
Qed.

Lemma signups_same_password_differ_witness :
  let '(user1, w1) :=
    User_signup "bob" "bob@example.org" "hunter2" None None world_alice in
  let '(user2, _) :=
    User_signup "carol" "carol@example.org" "hunter2" None None w1 in
  User.password_hashed user1 <> User.password_hashed user2.
Proof.
  apply (signups_same_password_differ Bcrypt.toy world_alice
           "bob" "carol" "bob@example.org" "carol@example.org" "hunter2"
           None None None None).
  vm_compute. discriminate.
Defined.

(** ** Rows written by a commit *)

Lemma each_insert_user_rows (l : list User.t) (d d' : Database) :
  Forall (fun u => User.id u = None) l ->
  each insert_user l d = Ok d' ->
  exists rows,
    users d' = users d ++ rows /\
    users_id_seq d' = users_id_seq d + Z.of_nat (length l) /\
    Forall2 (fun u r =>
               User.username r = User.username u /\
               User.email r = User.email u /\
               User.password_hashed r = User.password_hashed u /\
               User.first_name r = User.first_name u /\
               User.last_name r = User.last_name u /\
               User.is_admin r = Some (default false (User.is_admin u)) /\
               User.has_medical_history r
                 = Some (default false (User.has_medical_history u)))
            l rows /\
    forall i r, rows !! i = Some r ->
      User.id r = Some (users_id_seq d + Z.of_nat i).
Proof.
  revert d. induction l as [| u l IH]; intros d Hl; simpl.
  - intros [= <-]. exists []. rewrite app_nil_r.
    split; [done |]. split; [lia |]. split; [constructor |].
    intros i r Hr. by rewrite lookup_nil in Hr.
  - apply Forall_cons in Hl as [Hu Hl].
    destruct (insert_user u d) as [d1 | e] eqn:Hins; simpl; [| done].
    intros Hrest. apply insert_user_inv in Hins as (-> & _).
    destruct (IH _ Hl Hrest) as (rows & Hrows & Hseq & Hfields & Hids).
    exists (stored_row u d :: rows). simpl in Hrows, Hseq.
    rewrite Hu in Hseq.
    split; [by rewrite Hrows, <- app_assoc |]. split; [lia |].
    split; [by constructor |].
    intros [| i] r Hr; simpl in Hr.
    + injection Hr as <-. simpl. rewrite Hu. simpl. f_equal. lia.
    + rewrite (Hids i r Hr). simpl. rewrite Hu. f_equal. lia.
Qed.

(** X9. A commit that succeeds appends one row per pending user, in the
    order of the signups: each row carries the username, email, hash and
    names of its user, both flags at their default, and the primary keys
    are consecutive values of the sequence. *)
Theorem commit_appends_rows (S : Bcrypt.Scheme) (w w' : World S)
    (Htransient : transient (session w))
    (Hcommit : commit w = (None, w')) :
  exists rows,
    users (db w') = users (db w) ++ rows /\
    users_id_seq (db w')
      = users_id_seq (db w) + Z.of_nat (length (new (session w))) /\
    Forall2 (fun u r =>
               User.username r = User.username u /\
               User.email r = User.email u /\
               User.password_hashed r = User.password_hashed u /\
               User.first_name r = User.first_name u /\
               User.last_name r = User.last_name u /\
               User.is_admin r = Some (default false (User.is_admin u)) /\
               User.has_medical_history r
                 = Some (default false (User.has_medical_history u)))
            (new (session w)) rows /\
    forall i r, rows !! i = Some r ->
      User.id r = Some (users_id_seq (db w) + Z.of_nat i).
Proof.
  unfold commit, flush in Hcommit.
  destruct (each insert_user (new (session w)) (db w)) as [d1 | e] eqn:Hins;
    simpl in Hcommit; [| done].
  destruct (each delete_form (deleted (session w)) d1) as [d2 | e] eqn:Hdel;
    [| done].
  injection Hcommit as <-. simpl.
  rewrite (each_delete_form_users _ _ _ Hdel).
  rewrite (each_delete_form_users_id_seq _ _ _ Hdel).
  by apply each_insert_user_rows.
Qed.

Lemma commit_appends_rows_witness :
  let w := snd (User_signup "carol" "carol@example.org" "s3cret" None None
             (snd (User_signup "bob" "bob@example.org" "hunter2" None None
                     world_alice))) in
  fst (commit w) = None /\
  exists rows,
    users (db (snd (commit w))) = [alice] ++ rows /\
    (User.username <$> rows) = ["bob"; "carol"]%string /\
    forall i r, rows !! i = Some r -> User.id r = Some (2 + Z.of_nat i).
Proof.
  intros w. split; [reflexivity |].
  destruct (commit_appends_rows Bcrypt.toy w (snd (commit w)))
    as (rows & Hrows & _ & _ & Hids).
  - repeat constructor.
  - reflexivity.
  - exists rows. split; [exact Hrows |]. split; [| exact Hids].
    apply (app_inv_head [alice]) in Hrows. by rewrite <- Hrows.
Defined.

(** ** More on [to_dict] *)

Lemma FollowupQuestions_to_dict_lookup (f : FollowupQuestions.t) :
  FollowupQuestions_to_dict f !! "id" = Some (PyInt (FollowupQuestions.id f)) /\
  FollowupQuestions_to_dict f !! "prompt"
    = Some (PyStr (FollowupQuestions.prompt f)) /\
  FollowupQuestions_to_dict f !! "parent_question_id"
    = Some (PyInt (FollowupQuestions.parent_question_id f)).
Proof. unfold FollowupQuestions_to_dict. repeat split; by simplify_map_eq. Qed.

Lemma FollowupQuestions_to_dict_inj (f1 f2 : FollowupQuestions.t) :
  FollowupQuestions_to_dict f1 = FollowupQuestions_to_dict f2 -> f1 = f2.
Proof.
  intros Heq.
  destruct (FollowupQuestions_to_dict_lookup f1) as (Hi1 & Hp1 & Hq1).
  destruct (FollowupQuestions_to_dict_lookup f2) as (Hi2 & Hp2 & Hq2).
  rewrite Heq in Hi1, Hp1, Hq1.
  destruct f1, f2. simpl in *. congruence.
Qed.

Lemma PyDict_inj (m1 m2 : gmap string PyVal) : PyDict m1 = PyDict m2 -> m1 = m2.
Proof. intros Heq. by injection Heq. Qed.

(** X10. Whatever the number of followups, the [followups] entry of
    [ConsultQuestion.to_dict] holds exactly the maps of the stored followup
    rows whose [parent_question_id] is the question's [id], one per row;
    each of them carries under [parent_question_id] what the question's map
    carries under [id]; and it is the empty list when the question has no
    followup row. *)
Theorem to_dict_followups_exact (self : ConsultQuestion.t) (d : Database) :
  exists l,
    ConsultQuestion_to_dict self d !! "followups" = Some (PyList l) /\
    length l = length (followups self d) /\
    (forall fq,
       PyDict (FollowupQuestions_to_dict fq) ∈ l <->
       fq ∈ followup_questions d /\
       FollowupQuestions.parent_question_id fq = ConsultQuestion.id self) /\
    (forall v, v ∈ l -> exists m : gmap string PyVal,
       v = PyDict m /\
       m !! "parent_question_id" = ConsultQuestion_to_dict self d !! "id") /\
    ((forall fq, fq ∈ followup_questions d ->
        FollowupQuestions.parent_question_id fq <> ConsultQuestion.id self) ->
     l = []).
Proof.
  exists ((fun f => PyDict (FollowupQuestions_to_dict f)) <$> followups self d).
  assert (Hid : ConsultQuestion_to_dict self d !! "id"
                = Some (PyInt (ConsultQuestion.id self))).
  { unfold ConsultQuestion_to_dict. by simplify_map_eq. }
  split; [unfold ConsultQuestion_to_dict; by simplify_map_eq |].
  split; [by rewrite length_fmap |]. split; [| split].
  - intros fq. rewrite list_elem_of_fmap. unfold followups. split.
    + intros (f & Heq & Hf). apply PyDict_inj in Heq.
      apply FollowupQuestions_to_dict_inj in Heq as ->.
      apply list_elem_of_filter in Hf. tauto.
    + intros [Hin Hparent]. exists fq. split; [done |].
      apply list_elem_of_filter. by split.
  - intros v Hv. apply list_elem_of_fmap in Hv as (f & -> & Hf).
    exists (FollowupQuestions_to_dict f). split; [done |].
    apply list_elem_of_filter in Hf as [Hparent _].
    destruct (FollowupQuestions_to_dict_lookup f) as (_ & _ & ->).
    by rewrite Hid, Hparent.
  - intros Hnone. unfold followups. rewrite filter_none; [done |].
    intros fq Hfq. by apply Hnone.
Qed.

(** X11. Neither [to_dict] loses a column: two followup rows with the same
    map are the same row, and two questions with the same map have the same
    [id], [prompt] and [form_id]. *)
Theorem to_dict_injective :
  (forall f1 f2 : FollowupQuestions.t,
     FollowupQuestions_to_dict f1 = FollowupQuestions_to_dict f2 -> f1 = f2) /\
  (forall (q1 q2 : ConsultQuestion.t) (d1 d2 : Database),
     ConsultQuestion_to_dict q1 d1 = ConsultQuestion_to_dict q2 d2 -> q1 = q2).
Proof.
  split; [apply FollowupQuestions_to_dict_inj |].
  intros q1 q2 d1 d2 Heq.
  assert (Hl : forall q d,
    ConsultQuestion_to_dict q d !! "id" = Some (PyInt (ConsultQuestion.id q)) /\
    ConsultQuestion_to_dict q d !! "prompt"
      = Some (PyStr (ConsultQuestion.prompt q)) /\
    ConsultQuestion_to_dict q d !! "form_id"
      = Some (PyInt (ConsultQuestion.form_id q))).
  { intros q d. unfold ConsultQuestion_to_dict. repeat split; by simplify_map_eq. }
  destruct (Hl q1 d1) as (Hi1 & Hp1 & Hf1).
  destruct (Hl q2 d2) as (Hi2 & Hp2 & Hf2).
  rewrite Heq in Hi1, Hp1, Hf1.
  destruct q1, q2. simpl in *. congruence.
Qed.

Lemma to_dict_followups_exact_witness :
  exists l,
    ConsultQuestion_to_dict question_itch db_forms !! "followups" = Some (PyList l) /\
    l = [].
Proof.
  destruct (to_dict_followups_exact question_itch db_forms)
    as (l & Hl & _ & _ & _ & Hnil).
  exists l. split; [exact Hl |]. apply Hnil. intros fq Hfq.
  repeat (apply elem_of_cons in Hfq as [-> | Hfq]; [discriminate |]).
  by apply elem_of_nil in Hfq.
Defined.

Lemma to_dict_injective_witness :
  FollowupQuestions_to_dict followup_since
  <> FollowupQuestions_to_dict followup_spread.
Proof.
  intros Heq. apply (proj1 to_dict_injective) in Heq. discriminate Heq.
Defined.

(** ** What the deletion of a form leaves alone *)

Lemma NoDup_fmap_eq {A B} (g : A -> B) (l : list A) (x y : A) :
  NoDup (g <$> l) -> x ∈ l -> y ∈ l -> g x = g y -> x = y.
Proof.
  induction l as [| a l IH]; intros Hnd Hx Hy Heq.
  - by apply elem_of_nil in Hx.
  - rewrite fmap_cons in Hnd. apply NoDup_cons in Hnd as [Ha Hnd].
    apply elem_of_cons in Hx as [-> | Hx]; apply elem_of_cons in Hy as [-> | Hy].
    + done.
    + exfalso. apply Ha. rewrite Heq. by apply list_elem_of_fmap_2.
    + exfalso. apply Ha. rewrite <- Heq. by apply list_elem_of_fmap_2.
    + by apply IH.
Qed.

(** X12. Deleting a form touches [consult_forms] and [consult_questions]
    only: the users, consultations, answers and followup questions are the
    same after the commit, every other form is kept, and, question ids
    being unique, so is every question of another form.  When the commit
    raises, nothing at all has changed. *)
Theorem delete_form_frame (S : Bcrypt.Scheme) (w : World S) (f : ConsultForm.t)
    (Hsession : session w = empty_session)
    (Hpk : NoDup (ConsultQuestion.id <$> consult_questions (db w))) :
  let '(exn, w') :=
    commit {| db := db w; session := session_delete f (session w);
              entropy := entropy w |} in
  users (db w') = users (db w) /\
  consultations (db w') = consultations (db w) /\
  consult_answers (db w') = consult_answers (db w) /\
  followup_answers (db w') = followup_answers (db w) /\
  followup_questions (db w') = followup_questions (db w) /\
  (forall g, g ∈ consult_forms (db w) -> ConsultForm.id g <> ConsultForm.id f ->
     g ∈ consult_forms (db w')) /\
  (forall q, q ∈ consult_questions (db w) ->
     ConsultQuestion.form_id q <> ConsultForm.id f ->
     q ∈ consult_questions (db w')) /\
  (exn <> None -> db w' = db w).
Proof.
  rewrite (commit_after_delete S w f Hsession).
  destruct (delete_form f (db w)) as [d' | e] eqn:Hdel; simpl; [| done].
  unfold delete_form in Hdel. repeat case_bool_decide; simplify_eq. simpl.
  repeat (split; [done |]). split; [| split; [| done]].
  - intros g Hg Hne. apply list_elem_of_filter. by split.
  - intros q Hq Hne. apply list_elem_of_filter. split; [| done].
    intros Hin. apply list_elem_of_fmap in Hin as (q' & Hid & Hq').
    apply list_elem_of_filter in Hq' as [Hform Hq'].
    assert (q = q') as -> by (by apply (NoDup_fmap_eq ConsultQuestion.id _ _ _ Hpk)).
    done.
Qed.

Lemma delete_form_frame_witness :
  let '(exn, w') :=
    commit {| db := db_forms; session := session_delete form_rash empty_session;
              entropy := toy_entropy |} in
  users (db w') = [alice] /\
  consultations (db w') = [] /\
  consult_answers (db w') = [] /\
  followup_answers (db w') = [] /\
  followup_questions (db w') = [followup_since; followup_spread] /\
  (forall g, g ∈ consult_forms db_forms -> ConsultForm.id g <> ConsultForm.id form_rash ->
     g ∈ consult_forms (db w')) /\
  (forall q, q ∈ consult_questions db_forms ->
     ConsultQuestion.form_id q <> ConsultForm.id form_rash ->
     q ∈ consult_questions (db w')) /\
  (exn <> None -> db w' = db_forms).
Proof.
  apply (delete_form_frame Bcrypt.toy world_forms form_rash eq_refl).
  simpl. apply NoDup_cons. split.
  - intros Hin. apply list_elem_of_singleton in Hin. discriminate.
  - apply NoDup_singleton.
Defined.
